(** * The Datadog service level objective data source

    A shallow embedding of [datadog/data_source_datadog_service_level_objective.go]:
    the schema declared by [dataSourceDatadogServiceLevelObjective] and the
    read function [dataSourceServiceLevelObjectiveRead], followed by the
    properties of the lookup that the specification states.

    The read function mutates the resource data [d] it is handed, calls the
    monitoring service once and returns a Go [error].  It is embedded in a
    state monad with early return over a [World]: the resource data together
    with the chronological log of the effects performed (the list call, the
    attribute assignments, the identifier assignment). *)

From Stdlib Require Import Floats.PrimFloat.
From stdpp Require Import gmap strings list fin_maps.

Local Open Scope string_scope.

(** ** Values handed to the attribute store *)

(** Go's [float64]; the code only copies such values. *)
Abbreviation float64 := PrimFloat.float.

(** The values of a [map[string]interface{}] built by the read function:
    strings and floats. *)
Inductive Scalar : Type :=
| SString (s : string)
| SFloat (f : float64).

(** What the read function passes to [d.Set]: a string, a [[]string], a
    [[]int64], or a [[]map[string]interface{}]. *)
Inductive Value : Type :=
| VString (s : string)
| VStrings (l : list string)
| VInts (l : list Z)
| VObjects (l : list (gmap string Scalar)).

(** ** Errors *)

(** A Go [error] value.  [Errorf] is an error built by [fmt.Errorf] in this
    file; [External] is an error produced by a collaborator (the API client or
    the attribute store), carrying its diagnostic message; [Translated] is
    the result of [utils.TranslateClientError]. *)
Inductive error : Type :=
| Errorf (msg : string)
| External (diagnostic : string)
| Translated (context : string) (cause : error).

(** Modelled from the spec: [utils.TranslateClientError] lives in
    [datadog/internal/utils], outside this file.  The specification says the
    read fails "with a translated error that preserves the underlying
    service's diagnostic message, tagged with context": the translated error
    keeps the client's error and the context string it is given. *)
Definition TranslateClientError (err : error) (msg : string) : error :=
  Translated msg err.

Definition error_context (e : error) : option string :=
  match e with
  | Translated ctx _ => Some ctx
  | _ => None
  end.

Definition error_cause (e : error) : option error :=
  match e with
  | Translated _ cause => Some cause
  | _ => None
  end.

(** ** The API client's data model *)

(** The accessors of the generated API client follow one convention: [GetX]
    returns the field, or the zero value of its type when the field (or the
    object) is absent; [GetXOk] returns the field together with a presence
    flag.  Optional fields are [option]s here. *)

Definition SLOType := string.
Definition SLOTYPE_METRIC : SLOType := "metric".
Definition SLOTYPE_MONITOR : SLOType := "monitor".

Record SLOThreshold : Type := {
  Target : float64;
  TargetDisplay : option string;
  Timeframe : string;
  Warning : option float64;
  WarningDisplay : option string
}.

Definition GetTimeframe (t : SLOThreshold) : string := Timeframe t.
Definition GetTarget (t : SLOThreshold) : float64 := Target t.
Definition GetWarningOk (t : SLOThreshold) : option float64 := Warning t.
Definition GetTargetDisplayOk (t : SLOThreshold) : option string := TargetDisplay t.
Definition GetWarningDisplayOk (t : SLOThreshold) : option string := WarningDisplay t.

Record ServiceLevelObjectiveQuery : Type := {
  Denominator : option string;
  Numerator : option string
}.

Definition GetNumerator (q : option ServiceLevelObjectiveQuery) : string :=
  default "" (q ≫= Numerator).
Definition GetDenominator (q : option ServiceLevelObjectiveQuery) : string :=
  default "" (q ≫= Denominator).

Record ServiceLevelObjective : Type := {
  Description : option string;
  Groups : option (list string);
  Id : option string;
  MonitorIds : option (list Z);
  Name : string;
  Query_ : option ServiceLevelObjectiveQuery;
  Tags : option (list string);
  Thresholds : list SLOThreshold;
  Type_ : SLOType
}.

Definition GetName (o : ServiceLevelObjective) : string := Name o.
Definition GetDescription (o : ServiceLevelObjective) : string :=
  default "" (Description o).
Definition GetType (o : ServiceLevelObjective) : SLOType := Type_ o.
Definition GetTags (o : ServiceLevelObjective) : list string := default [] (Tags o).
Definition GetThresholds (o : ServiceLevelObjective) : list SLOThreshold := Thresholds o.
Definition GetMonitorIds (o : ServiceLevelObjective) : list Z :=
  default [] (MonitorIds o).
Definition GetGroups (o : ServiceLevelObjective) : list string := default [] (Groups o).
Definition GetQuery (o : ServiceLevelObjective) : option ServiceLevelObjectiveQuery :=
  Query_ o.
Definition GetId (o : ServiceLevelObjective) : string := default "" (Id o).

Record SLOListResponse : Type := {
  Data : option (list ServiceLevelObjective)
}.

Definition GetData (r : SLOListResponse) : list ServiceLevelObjective :=
  default [] (Data r).

(** The list request: the authentication context and the three optional
    filters, each attached by its own builder method. *)
Record ApiListSLOsRequest : Type := {
  ctx : string;
  query : option string;
  tagsQuery : option string;
  metricsQuery : option string
}.

Definition ListSLOs (authV1 : string) : ApiListSLOsRequest :=
  {| ctx := authV1; query := None; tagsQuery := None; metricsQuery := None |}.

Definition Query (r : ApiListSLOsRequest) (v : string) : ApiListSLOsRequest :=
  {| ctx := ctx r; query := Some v; tagsQuery := tagsQuery r;
     metricsQuery := metricsQuery r |}.

Definition TagsQuery (r : ApiListSLOsRequest) (v : string) : ApiListSLOsRequest :=
  {| ctx := ctx r; query := query r; tagsQuery := Some v;
     metricsQuery := metricsQuery r |}.

Definition MetricsQuery (r : ApiListSLOsRequest) (v : string) : ApiListSLOsRequest :=
  {| ctx := ctx r; query := query r; tagsQuery := tagsQuery r;
     metricsQuery := Some v |}.

(** The provider configuration handed to the read function as [meta].  The
    client is the monitoring service as seen by this invocation: what
    [Execute] answers to a list request, a response and an optional error
    (the raw HTTP response is discarded by the code). *)
Record ProviderConfiguration : Type := {
  DatadogClientV1 : ApiListSLOsRequest → SLOListResponse * option error;
  AuthV1 : string
}.

(** ** The resource data and the effect log *)

(** The resource data [d]: the filter attributes for which [GetOk] reports
    presence (the three inputs are declared [TypeString]), the attributes
    assigned by [Set], and the identifier (empty until [SetId]). *)
Record ResourceData : Type := {
  config : gmap string string;
  attrs : gmap string Value;
  id : string
}.

Inductive Event : Type :=
| EvExecute (req : ApiListSLOsRequest)
| EvSet (key : string) (v : Value)
| EvSetId (v : string).

Record World : Type := {
  d : ResourceData;
  events : list Event
}.

Definition log (ev : Event) (w : World) : World :=
  {| d := d w; events := (events w ++ [ev])%list |}.

(** ** The monad of the read function *)

(** A computation ends by producing a value, by returning a non-nil error
    from the enclosing function, or by a run-time panic. *)
Inductive result (A : Type) : Type :=
| Ok (a : A)
| Err (e : error)
| Panic (reason : string).
Arguments Ok {A} a.
Arguments Err {A} e.
Arguments Panic {A} reason.

Definition M (A : Type) : Type := World → result A * World.

#[export] Instance M_ret : MRet M := λ A a w, (Ok a, w).

#[export] Instance M_bind : MBind M := λ A B k m w,
  match m w with
  | (Ok a, w') => k a w'
  | (Err e, w') => (Err e, w')
  | (Panic r, w') => (Panic r, w')
  end.

(** [return err] *)
Definition return_err {A : Type} (e : error) : M A := λ w, (Err e, w).

(** [slos[i]]: an index out of range panics. *)
Definition index {A : Type} (l : list A) (i : nat) : M A :=
  λ w, match l !! i with
       | Some x => (Ok x, w)
       | None => (Panic "index out of range", w)
       end.

(** ** The operations on the resource data *)

(** [d.GetOk(key)] for a string attribute: the value and its presence flag. *)
Definition GetOk (key : string) : M (option string) :=
  λ w, (Ok (config (d w) !! key), w).

Definition set_attr (key : string) (v : Value) (r : ResourceData) : ResourceData :=
  {| config := config r; attrs := <[key := v]> (attrs r); id := id r |}.

Definition set_id (v : string) (r : ResourceData) : ResourceData :=
  {| config := config r; attrs := attrs r; id := v |}.

(** [d.SetId(v)] *)
Definition SetId (v : string) : M unit :=
  λ w, (Ok (), {| d := set_id v (d w); events := (events w ++ [EvSetId v])%list |}).

(** [req.Execute()]: one call to the service. *)
Definition Execute (client : ApiListSLOsRequest → SLOListResponse * option error)
    (req : ApiListSLOsRequest) : M (SLOListResponse * option error) :=
  λ w, (Ok (client req), log (EvExecute req) w).

Section Read.

(** The schema-typed field writer behind [d.Set]: the error, if any, with
    which it rejects a value for a key (a type mismatch, say). *)
Variable writeField : string → Value → option error.

(** [d.Set(key, v)]: the attempt is logged; a rejected value leaves the
    attributes as they were and the error is handed back to the caller. *)
Definition Set_ (key : string) (v : Value) : M (option error) :=
  λ w, match writeField key v with
       | Some e => (Ok (Some e), log (EvSet key v) w)
       | None =>
           (Ok None,
            {| d := set_attr key v (d w);
               events := (events w ++ [EvSet key v])%list |})
       end.

(** [if err := ...; err != nil { return err }] *)
Definition check (err : option error) : M unit :=
  match err with
  | Some e => return_err e
  | None => mret ()
  end.

(** The body of the loop over [slo.GetThresholds()]. *)
Definition threshold_entry (threshold : SLOThreshold) : gmap string Scalar :=
  let t : gmap string Scalar :=
    <["target" := SFloat (GetTarget threshold)]>
      (<["timeframe" := SString (GetTimeframe threshold)]> ∅) in
  let t := match GetWarningOk threshold with
           | Some warning => <["warning" := SFloat warning]> t
           | None => t
           end in
  let t := match GetTargetDisplayOk threshold with
           | Some targetDisplay => <["target_display" := SString targetDisplay]> t
           | None => t
           end in
  let t := match GetWarningDisplayOk threshold with
           | Some warningDisplay => <["warning_display" := SString warningDisplay]> t
           | None => t
           end in
  t.

Definition dataSourceServiceLevelObjectiveRead (meta : ProviderConfiguration)
    : M unit :=
  let datadogClientV1 := DatadogClientV1 meta in
  let authV1 := AuthV1 meta in

  let req := ListSLOs authV1 in
  v ← GetOk "name_query";
  let req := match v with Some v => Query req v | None => req end in
  v ← GetOk "tags_filter";
  let req := match v with Some v => TagsQuery req v | None => req end in
  v ← GetOk "metrics_query";
  let req := match v with Some v => MetricsQuery req v | None => req end in

  '(sloResponse, err) ← Execute datadogClientV1 req;
  match err with
  | Some err => return_err (TranslateClientError err "error querying monitors")
  | None =>

  let slos := GetData sloResponse in
  if bool_decide (1 < length slos) then   (* len(slos) > 1 *)
    return_err (Errorf "your query returned more than one result, please try a more specific search criteria")
  else
  if bool_decide (length slos = 0) then
    return_err (Errorf "your query returned no result, please try a less specific search criteria")
  else

  slo ← index slos 0;

  let thresholds :=
    foldl (λ thresholds threshold, (thresholds ++ [threshold_entry threshold])%list)
          [] (GetThresholds slo) in

  let tags := foldl (λ tags s, (tags ++ [s])%list) [] (GetTags slo) in

  Set_ "name" (VString (GetName slo)) ≫= check;;
  Set_ "description" (VString (GetDescription slo)) ≫= check;;
  Set_ "type" (VString (GetType slo)) ≫= check;;
  Set_ "tags" (VStrings tags) ≫= check;;
  Set_ "thresholds" (VObjects thresholds) ≫= check;;
  (if bool_decide (GetType slo = SLOTYPE_MONITOR) then
     (* monitor type *)
     (if bool_decide (0 < length (GetMonitorIds slo)) then
        Set_ "monitor_ids" (VInts (GetMonitorIds slo)) ≫= check
      else (mret () : M unit));;
     Set_ "groups" (VStrings (GetGroups slo)) ≫= check
   else
     (* metric type *)
     let query : gmap string Scalar := ∅ in
     let q := GetQuery slo in
     let query := <["numerator" := SString (GetNumerator q)]> query in
     let query := <["denominator" := SString (GetDenominator q)]> query in
     Set_ "query" (VObjects [query]) ≫= check);;
  SetId (GetId slo);;

  (mret () : M unit)
  end.

End Read.

(** ** The declared schema *)

(** The part of the SDK's [schema] package the declaration uses.  A
    [Resource] is represented by its [Schema] map, written as the list of
    entries of the Go map literal; the documentation strings are left out. *)
Module schema.

Inductive ValueType : Type :=
| TypeBool | TypeInt | TypeFloat | TypeString | TypeList | TypeSet.

(** [Elem]: absent, a [*schema.Schema], or a [*schema.Resource]. *)
Inductive SchemaElem (S : Type) : Type :=
| NoElem
| ElemSchema (s : S)
| ElemResource (fields : list (string * S)).
Arguments NoElem {S}.
Arguments ElemSchema {S} s.
Arguments ElemResource {S} fields.

Local Unset Elimination Schemes.
Inductive Schema : Type := {
  Type_ : ValueType;
  Optional : bool;
  Computed : bool;
  Removed : string;
  MaxItems : nat;
  MinItems : nat;
  Elem : SchemaElem Schema
}.
Local Set Elimination Schemes.

Definition Resource : Type := list (string * Schema).

(** A schema with every field at Go's zero value but the type. *)
Definition of_type (t : ValueType) : Schema :=
  {| Type_ := t; Optional := false; Computed := false; Removed := "";
     MaxItems := 0; MinItems := 0; Elem := NoElem |}.

Definition lookup (r : Resource) (key : string) : option Schema :=
  (list_to_map r : gmap string Schema) !! key.

(** The names of the fields declared [Computed]. *)
Definition computed_fields (r : Resource) : list string :=
  (filter (λ kv, Computed kv.2 = true) r).*1.

End schema.

Definition dataSourceDatadogServiceLevelObjective : schema.Resource :=
  let computed (t : schema.ValueType) (e : schema.SchemaElem schema.Schema) : schema.Schema :=
    {| schema.Type_ := t; schema.Optional := false; schema.Computed := true;
       schema.Removed := ""; schema.MaxItems := 0; schema.MinItems := 0;
       schema.Elem := e |} in
  let optional (t : schema.ValueType) (e : schema.SchemaElem schema.Schema) : schema.Schema :=
    {| schema.Type_ := t; schema.Optional := true; schema.Computed := false;
       schema.Removed := ""; schema.MaxItems := 0; schema.MinItems := 0;
       schema.Elem := e |} in
  [ ("name_query", optional schema.TypeString schema.NoElem);
    ("tags_filter",
      optional schema.TypeString
        (schema.ElemSchema (schema.of_type schema.TypeString)));
    ("metrics_query",
      optional schema.TypeString
        (schema.ElemSchema (schema.of_type schema.TypeString)));

    (* Computed values *)
    ("name", computed schema.TypeString schema.NoElem);
    ("description", computed schema.TypeString schema.NoElem);
    ("tags",
      computed schema.TypeSet
        (schema.ElemSchema (schema.of_type schema.TypeString)));
    ("thresholds",
      computed schema.TypeList
        (schema.ElemResource
           [ ("timeframe", computed schema.TypeString schema.NoElem);
             ("target", computed schema.TypeFloat schema.NoElem);
             ("target_display", computed schema.TypeString schema.NoElem);
             ("warning", computed schema.TypeFloat schema.NoElem);
             ("warning_display", computed schema.TypeString schema.NoElem) ]));
    ("type", computed schema.TypeString schema.NoElem);
    ("force_delete", computed schema.TypeBool schema.NoElem);
    (* Metric-Based SLO *)
    ("query",
      {| schema.Type_ := schema.TypeList; schema.Optional := false;
         schema.Computed := true; schema.Removed := ""; schema.MaxItems := 1;
         schema.MinItems := 0;
         schema.Elem :=
           schema.ElemResource
             [ ("numerator", computed schema.TypeString schema.NoElem);
               ("denominator", computed schema.TypeString schema.NoElem) ] |});
    (* Monitor-Based SLO *)
    ("monitor_ids",
      computed schema.TypeSet
        (schema.ElemSchema
           {| schema.Type_ := schema.TypeInt; schema.Optional := false;
              schema.Computed := false; schema.Removed := "";
              schema.MaxItems := 0; schema.MinItems := 1;
              schema.Elem := schema.NoElem |}));
    ("monitor_search",
      {| schema.Type_ := schema.TypeString; schema.Optional := false;
         schema.Computed := true; schema.Removed := "Feature is not yet supported";
         schema.MaxItems := 0; schema.MinItems := 0;
         schema.Elem := schema.NoElem |});
    ("groups",
      computed schema.TypeSet
        (schema.ElemSchema
           {| schema.Type_ := schema.TypeString; schema.Optional := false;
              schema.Computed := false; schema.Removed := "";
              schema.MaxItems := 0; schema.MinItems := 1;
              schema.Elem := schema.NoElem |}));
    ("validate", computed schema.TypeBool schema.NoElem) ].

(** Modelled from the spec: the check of the attributes a caller supplies is
    done by the configuration engine, outside this file.  The specification
    says a retired field "must surface as a hard error if a caller still
    supplies it": supplying an attribute whose declaration carries a
    [Removed] message is rejected with an error carrying that message;
    nothing else is checked here. *)
Definition validateSupplied (r : schema.Resource) (key : string) : option error :=
  match schema.lookup r key with
  | Some s =>
      if bool_decide (schema.Removed s = "") then None
      else Some (External (schema.Removed s))
  | None => None
  end.

(** ** Runs of the read function *)

(** A run starts from the resource data it is handed, with an empty log. *)
Definition start (r : ResourceData) : World := {| d := r; events := [] |}.

(** The request a run builds from the resource data: each filter is the
    value [GetOk] reports for its attribute. *)
Definition list_request (authV1 : string) (r : ResourceData) : ApiListSLOsRequest :=
  {| ctx := authV1;
     query := config r !! "name_query";
     tagsQuery := config r !! "tags_filter";
     metricsQuery := config r !! "metrics_query" |}.

Definition more_than_one_result : error :=
  Errorf "your query returned more than one result, please try a more specific search criteria".

Definition no_result : error :=
  Errorf "your query returned no result, please try a less specific search criteria".

(** The assignments the read function makes for a matched SLO, in program
    order, and their execution one after the other up to the first one the
    field writer rejects.  The read function is shown below to behave as
    this list-driven description; the lemmas about runs are then proved by
    induction on the list. *)
Definition group_assignments (slo : ServiceLevelObjective) : list (string * Value) :=
  if bool_decide (GetType slo = SLOTYPE_MONITOR) then
    ((if bool_decide (0 < length (GetMonitorIds slo))
      then [("monitor_ids", VInts (GetMonitorIds slo))] else []) ++
     [("groups", VStrings (GetGroups slo))])%list
  else
    [("query",
      VObjects [<["denominator" := SString (GetDenominator (GetQuery slo))]>
                  (<["numerator" := SString (GetNumerator (GetQuery slo))]> ∅)])].

Definition assignments (slo : ServiceLevelObjective) : list (string * Value) :=
  ([("name", VString (GetName slo));
    ("description", VString (GetDescription slo));
    ("type", VString (GetType slo));
    ("tags", VStrings (GetTags slo));
    ("thresholds", VObjects (threshold_entry <$> GetThresholds slo))] ++
   group_assignments slo)%list.

Definition assigned (l : list (string * Value)) (r : ResourceData) : ResourceData :=
  foldl (λ r kv, set_attr kv.1 kv.2 r) r l.

Definition attempts (l : list (string * Value)) : list Event :=
  (λ kv, EvSet kv.1 kv.2) <$> l.

Arguments assignments : simpl never.
Arguments attempts : simpl never.
Arguments assigned : simpl never.

Section Runs.

Variable writeField : string → Value → option error.

Fixpoint assign_all (l : list (string * Value)) (w : World) : result unit * World :=
  match l with
  | [] => (Ok (), w)
  | (key, v) :: l =>
      match writeField key v with
      | Some e => (Err e, log (EvSet key v) w)
      | None =>
          assign_all l {| d := set_attr key v (d w);
                          events := (events w ++ [EvSet key v])%list |}
      end
  end.

(** The field writer accepts the assignment. *)
Definition accepted (kv : string * Value) : Prop := writeField kv.1 kv.2 = None.

Definition finish (slo : ServiceLevelObjective) (rw : result unit * World)
    : result unit * World :=
  match rw with
  | (Ok _, w) => SetId (GetId slo) w
  | _ => rw
  end.

(** What a run returns, the resource data it leaves and the effects it
    performed. *)
Definition returned (meta : ProviderConfiguration) (r : ResourceData) : result unit :=
  (dataSourceServiceLevelObjectiveRead writeField meta (start r)).1.

Definition final (meta : ProviderConfiguration) (r : ResourceData) : ResourceData :=
  d (dataSourceServiceLevelObjectiveRead writeField meta (start r)).2.

Definition effects (meta : ProviderConfiguration) (r : ResourceData) : list Event :=
  events (dataSourceServiceLevelObjectiveRead writeField meta (start r)).2.

(** The normal form of a run. *)
Definition run_cases (meta : ProviderConfiguration) (r : ResourceData)
    : result unit * World :=
  let req := list_request (AuthV1 meta) r in
  let w := log (EvExecute req) (start r) in
  match DatadogClientV1 meta req with
  | (_, Some err) => (Err (TranslateClientError err "error querying monitors"), w)
  | (sloResponse, None) =>
      match GetData sloResponse with
      | [] => (Err no_result, w)
      | [slo] => finish slo (assign_all (assignments slo) w)
      | _ :: _ :: _ => (Err more_than_one_result, w)
      end
  end.

End Runs.

(** ** Sample data

    The monitor-type SLO of the specification's example, a metric-type SLO
    whose query is absent, services answering with a given list of SLOs or
    with an error, and field writers accepting everything or rejecting one
    key. *)
Definition checkout_latency : ServiceLevelObjective :=
  {| Description := None;
     Groups := Some ["env:prod"];
     Id := Some "slo-checkout";
     MonitorIds := Some [123; 456]%Z;
     Name := "checkout latency";
     Query_ := None;
     Tags := Some ["team:shop"];
     Thresholds :=
       [ {| Target := 0x1.8f9999999999ap+6%float (* 99.9 *);
            TargetDisplay := None; Timeframe := "7d";
            Warning := None; WarningDisplay := None |} ];
     Type_ := SLOTYPE_MONITOR |}.

Definition request_ratio : ServiceLevelObjective :=
  {| Description := Some "good over total";
     Groups := None;
     Id := Some "slo-ratio";
     MonitorIds := None;
     Name := "request ratio";
     Query_ := None;
     Tags := None;
     Thresholds :=
       [ {| Target := 99%float; TargetDisplay := Some "99.00"; Timeframe := "30d";
            Warning := Some 0%float; WarningDisplay := None |} ];
     Type_ := SLOTYPE_METRIC |}.

Definition service (slos : list ServiceLevelObjective) : ProviderConfiguration :=
  {| DatadogClientV1 := λ _, ({| Data := Some slos |}, None);
     AuthV1 := "api-key" |}.

Definition service_failing (err : error) : ProviderConfiguration :=
  {| DatadogClientV1 := λ _, ({| Data := None |}, Some err);
     AuthV1 := "api-key" |}.

Definition by_name : ResourceData :=
  {| config := {["name_query" := "checkout latency"]}; attrs := ∅; id := "" |}.

Definition accept_all : string → Value → option error := λ _ _, None.

Definition reject (key : string) : string → Value → option error :=
  λ k _, if bool_decide (k = key) then Some (External "type mismatch") else None.

(** ** Values against their declaration

    What it means here for a value handed to [d.Set] to fit the schema entry
    of its key, read off the declaration: a string for [TypeString]; a list of
    strings or of integers for a [TypeSet] whose [Elem] is a schema of that
    type; for a [TypeList] whose [Elem] is a resource, a list of objects
    whose keys are all fields of that resource, each holding a scalar of the
    field's type, and no longer than [MaxItems] when that is set. *)
Definition scalar_conforms (fields : list (string * schema.Schema))
    (key : string) (x : Scalar) : bool :=
  match schema.lookup fields key with
  | Some s =>
      match x, schema.Type_ s with
      | SString _, schema.TypeString => true
      | SFloat _, schema.TypeFloat => true
      | _, _ => false
      end
  | None => false
  end.

Definition object_conforms (fields : list (string * schema.Schema))
    (o : gmap string Scalar) : bool :=
  forallb (λ kv, scalar_conforms fields kv.1 kv.2) (map_to_list o).

Definition conforms (s : schema.Schema) (v : Value) : bool :=
  match v, schema.Type_ s, schema.Elem s with
  | VString _, schema.TypeString, _ => true
  | VStrings _, schema.TypeSet, schema.ElemSchema e =>
      match schema.Type_ e with schema.TypeString => true | _ => false end
  | VInts _, schema.TypeSet, schema.ElemSchema e =>
      match schema.Type_ e with schema.TypeInt => true | _ => false end
  | VObjects l, schema.TypeList, schema.ElemResource fields =>
      forallb (object_conforms fields) l &&
      match schema.MaxItems s with
      | 0 => true
      | S _ as n => bool_decide (length l ≤ n)%nat
      end
  | _, _, _ => false
  end.

(** Resource data with the same filter as [by_name] that already holds
    attributes and an identifier. *)
Definition by_name_again : ResourceData :=
  {| config := {["name_query" := "checkout latency"]};
     attrs := {["name" := VString "cart latency"; "force_delete" := VString "true"]};
     id := "slo-cart" |}.

(** * Properties *)

Section Properties.

Local Set Warnings "-clear-no-such-hyp".

Variable writeField : string → Value → option error.

Local Abbreviation run meta r :=
  (dataSourceServiceLevelObjectiveRead writeField meta (start r)).

(** The value of an attribute after the assignments of a matched SLO. *)
Ltac lookup_assigned :=
  unfold assignments, group_assignments, assigned;
  repeat case_bool_decide; by simplify_map_eq.

(** ** The two copying loops *)

Lemma foldl_snoc {A B : Type} (f : A → B) (l : list A) (acc : list B) :
  foldl (λ acc x, (acc ++ [f x])%list) acc l = (acc ++ (f <$> l))%list.
Proof.
  revert acc. induction l as [|x l IH]; intros acc; simpl.
  - by rewrite app_nil_r.
  - rewrite IH. by rewrite <- app_assoc.
Qed.

Lemma foldl_snoc_id {A : Type} (l : list A) :
  foldl (λ acc x, (acc ++ [x])%list) [] l = l.
Proof. rewrite (foldl_snoc (λ x, x)). simpl. apply list_fmap_id. Qed.

(** ** The request *)

Lemma request_built (authV1 : string) (r : ResourceData) :
  let req := ListSLOs authV1 in
  let req := match config r !! "name_query" with
             | Some v => Query req v | None => req end in
  let req := match config r !! "tags_filter" with
             | Some v => TagsQuery req v | None => req end in
  let req := match config r !! "metrics_query" with
             | Some v => MetricsQuery req v | None => req end in
  req = list_request authV1 r.
Proof.
  unfold list_request.
  destruct (config r !! "name_query"), (config r !! "tags_filter"),
    (config r !! "metrics_query"); reflexivity.
Qed.

(** ** The read function and its normal form *)

Lemma read_run_cases meta r : run meta r = run_cases writeField meta r.
Proof.
  unfold dataSourceServiceLevelObjectiveRead, run_cases.
  unfold mbind, M_bind, mret, M_ret, GetOk, Execute. simpl.
  rewrite (request_built (AuthV1 meta) r).
  destruct (DatadogClientV1 meta (list_request (AuthV1 meta) r))
    as [resp [err|]]; [reflexivity|].
  destruct (GetData resp) as [|slo [|slo' slos]]; [reflexivity| |reflexivity].
  simpl.
  unfold index, Set_, check, return_err, SetId, log, assignments,
    group_assignments, finish. simpl.
  rewrite (foldl_snoc threshold_entry), (foldl_snoc_id (GetTags slo)). simpl.
  destruct (writeField "name" _); simpl; [reflexivity|].
  destruct (writeField "description" _); simpl; [reflexivity|].
  destruct (writeField "type" _); simpl; [reflexivity|].
  destruct (writeField "tags" _); simpl; [reflexivity|].
  destruct (writeField "thresholds" _); simpl; [reflexivity|].
  destruct (bool_decide (GetType slo = SLOTYPE_MONITOR)); simpl.
  - destruct (bool_decide (0 < length (GetMonitorIds slo))); simpl.
    + destruct (writeField "monitor_ids" _); simpl; [reflexivity|].
      destruct (writeField "groups" _); reflexivity.
    + destruct (writeField "groups" _); reflexivity.
  - destruct (writeField "query" _); reflexivity.
Qed.

(** ** Assignments, one after the other *)

Lemma assigned_cons key v l r :
  assigned ((key, v) :: l) r = assigned l (set_attr key v r).
Proof. reflexivity. Qed.

Lemma assigned_app l1 l2 r : assigned (l1 ++ l2) r = assigned l2 (assigned l1 r).
Proof. unfold assigned. apply foldl_app. Qed.

Lemma attempts_cons key v l : attempts ((key, v) :: l) = EvSet key v :: attempts l.
Proof. reflexivity. Qed.

Lemma assigned_config l r : config (assigned l r) = config r.
Proof.
  revert r. induction l as [|[k v] l IH]; intros r; [done|].
  by rewrite assigned_cons, IH.
Qed.

Lemma assigned_id l r : id (assigned l r) = id r.
Proof.
  revert r. induction l as [|[k v] l IH]; intros r; [done|].
  by rewrite assigned_cons, IH.
Qed.

(** The keys outside the list keep their value. *)
Lemma assigned_lookup_other l r (key : string) :
  key ∉ l.*1 → attrs (assigned l r) !! key = attrs r !! key.
Proof.
  revert r. induction l as [|[k v] l IH]; intros r Hnot; [done|].
  rewrite fmap_cons in Hnot. apply not_elem_of_cons in Hnot as [Hne Hnot].
  rewrite assigned_cons, IH by done. simpl. by rewrite lookup_insert_ne.
Qed.

(** The last assignment to a key decides its value. *)
Lemma assigned_lookup_last l1 l2 r (key : string) (v : Value) :
  key ∉ l2.*1 → attrs (assigned (l1 ++ (key, v) :: l2) r) !! key = Some v.
Proof.
  intros Hnot. rewrite assigned_app, assigned_cons.
  rewrite assigned_lookup_other by done. simpl. apply lookup_insert_eq.
Qed.

(** Either every assignment is accepted and all are made, or the
    assignments stop at the first rejected one, which is the last event. *)
Lemma assign_all_cases l w :
  (Forall (accepted writeField) l ∧
   assign_all writeField l w =
     (Ok (), {| d := assigned l (d w);
                events := (events w ++ attempts l)%list |}))
  ∨ (∃ l1 key v e l2,
      l = (l1 ++ (key, v) :: l2)%list ∧ Forall (accepted writeField) l1 ∧
      writeField key v = Some e ∧
      assign_all writeField l w =
        (Err e, {| d := assigned l1 (d w);
                   events := (events w ++ attempts l1 ++ [EvSet key v])%list |})).
Proof.
  revert w. induction l as [|[k v] l IH]; intros w.
  - left. split; [constructor|]. simpl.
    change (attempts []) with (@nil Event). rewrite app_nil_r. by destruct w.
  - simpl. destruct (writeField k v) as [e|] eqn:Hw.
    + right. exists [], k, v, e, l. split_and!; [done|constructor|done|by destruct w].
    + destruct (IH {| d := set_attr k v (d w);
                      events := (events w ++ [EvSet k v])%list |})
        as [[Hall ->]|(l1 & k' & v' & e & l2 & -> & Hall & Hw' & ->)].
      * left. split; [by constructor|].
        rewrite assigned_cons, attempts_cons. simpl.
        by rewrite <- app_assoc.
      * right. exists ((k, v) :: l1), k', v', e, l2.
        split_and!; [done|by constructor|done|].
        rewrite assigned_cons, attempts_cons. simpl.
        by rewrite <- app_assoc.
Qed.

Lemma attempts_elem_of (l : list (string * Value)) key v :
  EvSet key v ∈ attempts l ↔ (key, v) ∈ l.
Proof.
  unfold attempts. rewrite list_elem_of_fmap. split.
  - intros ([k' v'] & Heq & Hin). by simplify_eq/=.
  - intros Hin. by exists (key, v).
Qed.


Lemma attempts_no_set_id (l : list (string * Value)) x :
  EvSetId x ∉ attempts l.
Proof. unfold attempts. rewrite list_elem_of_fmap. by intros ([k v] & ? & _). Qed.

(** ** The shapes of a run *)

Lemma run_client_error meta r resp err :
  DatadogClientV1 meta (list_request (AuthV1 meta) r) = (resp, Some err) →
  run meta r =
    (Err (TranslateClientError err "error querying monitors"),
     {| d := r; events := [EvExecute (list_request (AuthV1 meta) r)] |}).
Proof. intros H. rewrite read_run_cases. unfold run_cases. by rewrite H. Qed.

Lemma run_no_result meta r resp :
  DatadogClientV1 meta (list_request (AuthV1 meta) r) = (resp, None) →
  length (GetData resp) = 0 →
  run meta r =
    (Err no_result,
     {| d := r; events := [EvExecute (list_request (AuthV1 meta) r)] |}).
Proof.
  intros H Hlen. rewrite read_run_cases. unfold run_cases. rewrite H.
  by destruct (GetData resp).
Qed.

Lemma run_more_than_one meta r resp :
  DatadogClientV1 meta (list_request (AuthV1 meta) r) = (resp, None) →
  1 < length (GetData resp) →
  run meta r =
    (Err more_than_one_result,
     {| d := r; events := [EvExecute (list_request (AuthV1 meta) r)] |}).
Proof.
  intros H Hlen. rewrite read_run_cases. unfold run_cases. rewrite H.
  destruct (GetData resp) as [|? [|? ?]]; simpl in *; [lia|lia|done].
Qed.

(** With exactly one result: every assignment is accepted, all are made
    and the identifier is set; or the run stops at the first rejected
    assignment and returns its error. *)
Lemma run_one_result meta r resp slo :
  DatadogClientV1 meta (list_request (AuthV1 meta) r) = (resp, None) →
  GetData resp = [slo] →
  (Forall (accepted writeField) (assignments slo) ∧
   run meta r =
     (Ok (),
      {| d := set_id (GetId slo) (assigned (assignments slo) r);
         events := (EvExecute (list_request (AuthV1 meta) r)
                      :: attempts (assignments slo) ++ [EvSetId (GetId slo)])%list |}))
  ∨ (∃ l1 key v e l2,
      assignments slo = (l1 ++ (key, v) :: l2)%list ∧ Forall (accepted writeField) l1 ∧
      writeField key v = Some e ∧
      run meta r =
        (Err e,
         {| d := assigned l1 r;
            events := (EvExecute (list_request (AuthV1 meta) r)
                         :: attempts l1 ++ [EvSet key v])%list |})).
Proof.
  intros H Hone. rewrite read_run_cases. unfold run_cases. rewrite H, Hone.
  destruct (assign_all_cases (assignments slo)
              (log (EvExecute (list_request (AuthV1 meta) r)) (start r)))
    as [[Hall ->]|(l1 & key & v & e & l2 & Heq & Hall & Hw & ->)].
  - left. split; [done|]. unfold finish, SetId. by simpl.
  - right. exists l1, key, v, e, l2. by split_and!.
Qed.

(** Every run has one of three shapes: an early exit after the list
    call, a complete run, or a run cut short by a rejected assignment. *)
Lemma run_shapes meta r :
  (∃ e, run meta r =
          (Err e, {| d := r; events := [EvExecute (list_request (AuthV1 meta) r)] |}))
  ∨ (∃ slo,
      Forall (accepted writeField) (assignments slo) ∧
      run meta r =
        (Ok (),
         {| d := set_id (GetId slo) (assigned (assignments slo) r);
            events := (EvExecute (list_request (AuthV1 meta) r)
                         :: attempts (assignments slo) ++ [EvSetId (GetId slo)])%list |}))
  ∨ (∃ slo l1 key v e l2,
      assignments slo = (l1 ++ (key, v) :: l2)%list ∧
      Forall (accepted writeField) l1 ∧
      writeField key v = Some e ∧
      run meta r =
        (Err e,
         {| d := assigned l1 r;
            events := (EvExecute (list_request (AuthV1 meta) r)
                         :: attempts l1 ++ [EvSet key v])%list |})).
Proof.
  destruct (DatadogClientV1 meta (list_request (AuthV1 meta) r))
    as [resp [err|]] eqn:Hc.
  { left. eexists. by eapply run_client_error. }
  destruct (GetData resp) as [|slo [|slo' slos]] eqn:Hd.
  - left. eexists. eapply run_no_result; [done|]. by rewrite Hd.
  - destruct (run_one_result meta r resp slo Hc Hd)
      as [[Hall Hrun]|(l1 & key & v & e & l2 & Heq & Hall & Hw & Hrun)].
    + right. left. by exists slo.
    + right. right. by exists slo, l1, key, v, e, l2.
  - left. eexists. eapply run_more_than_one; [done|]. rewrite Hd. simpl. lia.
Qed.

(** The index into the result list is always in range: no run panics. *)
Lemma run_no_panic meta r reason : (run meta r).1 ≠ Panic reason.
Proof.
  destruct (run_shapes meta r)
    as [[e ->]|[(slo & _ & ->)|(slo & l1 & key & v & e & l2 & _ & _ & _ & ->)]];
    done.
Qed.

(** When no attempted assignment is rejected, a run with exactly one
    result is complete. *)
Lemma run_one_accepted meta r resp slo :
  DatadogClientV1 meta (list_request (AuthV1 meta) r) = (resp, None) →
  GetData resp = [slo] →
  (∀ key v, EvSet key v ∈ events (run meta r).2 → writeField key v = None) →
  run meta r =
    (Ok (),
     {| d := set_id (GetId slo) (assigned (assignments slo) r);
        events := (EvExecute (list_request (AuthV1 meta) r)
                     :: attempts (assignments slo) ++ [EvSetId (GetId slo)])%list |}).
Proof.
  intros Hc Hd Hacc.
  destruct (run_one_result meta r resp slo Hc Hd)
    as [[Hall Hrun]|(l1 & key & v & e & l2 & Heq & Hall & Hw & Hrun)]; [done|].
  rewrite Hrun in Hacc. cbn [fst snd events d] in Hacc.
  rewrite (Hacc key v) in Hw; [done|].
  apply elem_of_cons. right. apply elem_of_app. right. apply list_elem_of_singleton. done.
Qed.

(** What a run with exactly one result attempts to assign is among the
    assignments of the matched SLO. *)
Lemma run_one_attempted meta r resp slo key v :
  DatadogClientV1 meta (list_request (AuthV1 meta) r) = (resp, None) →
  GetData resp = [slo] →
  EvSet key v ∈ events (run meta r).2 →
  (key, v) ∈ assignments slo.
Proof.
  intros Hc Hd.
  destruct (run_one_result meta r resp slo Hc Hd)
    as [[Hall ->]|(l1 & k0 & v0 & e & l2 & Heq & Hall & Hw & ->)];
    cbn [fst snd events d]; intros Hin;
    apply elem_of_cons in Hin as [Hin|Hin]; try done;
    apply elem_of_app in Hin as [Hin|Hin].
  - by apply attempts_elem_of.
  - by apply list_elem_of_singleton in Hin.
  - rewrite Heq. apply elem_of_app. left. by apply attempts_elem_of.
  - apply list_elem_of_singleton in Hin. simplify_eq.
    rewrite Heq. apply elem_of_app. right. apply elem_of_cons. by left.
Qed.

(** A key that is not among the assignments of the matched SLO is never
    assigned, and keeps the value it had. *)
Lemma run_one_untouched meta r resp slo (key : string) :
  DatadogClientV1 meta (list_request (AuthV1 meta) r) = (resp, None) →
  GetData resp = [slo] →
  key ∉ (assignments slo).*1 →
  (∀ v, EvSet key v ∉ events (run meta r).2) ∧
  attrs (d (run meta r).2) !! key = attrs r !! key.
Proof.
  intros Hc Hd Hnot. split.
  - intros v Hin. apply Hnot.
    apply (run_one_attempted meta r resp slo key v Hc Hd) in Hin.
    apply list_elem_of_fmap. by exists (key, v).
  - destruct (run_one_result meta r resp slo Hc Hd)
      as [[Hall ->]|(l1 & k0 & v0 & e & l2 & Heq & Hall & Hw & ->)];
      cbn [fst snd events d].
    + cbn [set_id attrs]. by apply assigned_lookup_other.
    + apply assigned_lookup_other. intros Hin. apply Hnot.
      rewrite Heq, fmap_app. apply elem_of_app. by left.
Qed.

(** The keys of the assignments. *)
Lemma assignments_keys slo :
  (assignments slo).*1 =
    (["name"; "description"; "type"; "tags"; "thresholds"] ++
     if bool_decide (GetType slo = SLOTYPE_MONITOR)
     then (if bool_decide (0 < length (GetMonitorIds slo))
           then ["monitor_ids"] else []) ++ ["groups"]
     else ["query"])%list.
Proof.
  unfold assignments, group_assignments.
  destruct (bool_decide (GetType slo = SLOTYPE_MONITOR)); [|done].
  by destruct (bool_decide (0 < length (GetMonitorIds slo))).
Qed.

(** ** The entries of the thresholds list *)

Lemma threshold_entry_lookup (threshold : SLOThreshold) :
  threshold_entry threshold !! "timeframe" = Some (SString (Timeframe threshold)) ∧
  threshold_entry threshold !! "target" = Some (SFloat (Target threshold)) ∧
  threshold_entry threshold !! "warning" = SFloat <$> Warning threshold ∧
  threshold_entry threshold !! "target_display" = SString <$> TargetDisplay threshold ∧
  threshold_entry threshold !! "warning_display" = SString <$> WarningDisplay threshold.
Proof.
  unfold threshold_entry, GetTimeframe, GetTarget, GetWarningOk,
    GetTargetDisplayOk, GetWarningDisplayOk.
  destruct (Warning threshold), (TargetDisplay threshold),
    (WarningDisplay threshold); by simplify_map_eq.
Qed.

Lemma threshold_entry_keys (threshold : SLOThreshold) (key : string) :
  is_Some (threshold_entry threshold !! key) →
  key ∈ ["timeframe"; "target"; "warning"; "target_display"; "warning_display"].
Proof.
  unfold threshold_entry, GetTimeframe, GetTarget, GetWarningOk,
    GetTargetDisplayOk, GetWarningDisplayOk.
  intros [x Hx].
  destruct (Warning threshold), (TargetDisplay threshold),
    (WarningDisplay threshold);
    repeat (rewrite lookup_insert in Hx; case_decide; [subst; set_solver|]);
    by rewrite lookup_empty in Hx.
Qed.

(** ** The claims *)

(** C1: the lookup succeeds only when the filtered list query returns
    exactly one SLO.  With more than one result the read returns the
    error asking for a more specific search, with none the error asking
    for a less specific search; it returns without error only with
    exactly one result, and it attempts an output assignment exactly when
    there is one result. *)
Theorem C1_exactly_one_result meta r resp :
  DatadogClientV1 meta (list_request (AuthV1 meta) r) = (resp, None) →
  (1 < length (GetData resp) →
     returned writeField meta r = Err more_than_one_result) ∧
  (length (GetData resp) = 0 → returned writeField meta r = Err no_result) ∧
  (returned writeField meta r = Ok () → length (GetData resp) = 1) ∧
  ((∃ key v, EvSet key v ∈ effects writeField meta r) ↔ length (GetData resp) = 1).
Proof.
  unfold returned, final, effects.
  intros Hc.
  assert (Hmany : 1 < length (GetData resp) →
                  run meta r = (Err more_than_one_result,
                    {| d := r; events := [EvExecute (list_request (AuthV1 meta) r)] |}))
    by (by apply run_more_than_one).
  assert (Hnone : length (GetData resp) = 0 →
                  run meta r = (Err no_result,
                    {| d := r; events := [EvExecute (list_request (AuthV1 meta) r)] |}))
    by (by apply run_no_result).
  split_and!.
  - intros Hlen. by rewrite Hmany.
  - intros Hlen. by rewrite Hnone.
  - intros Hok.
    destruct (GetData resp) as [|slo [|slo' slos]]; simpl in *; [|done|].
    + by rewrite Hnone in Hok.
    + rewrite Hmany in Hok by lia. done.
  - destruct (GetData resp) as [|slo [|slo' slos]] eqn:Hd; simpl in *.
    + rewrite Hnone by done. simpl. split; [|done].
      intros (key & v & Hin). apply list_elem_of_singleton in Hin. done.
    + split; [done|]. intros _.
      destruct (run_one_result meta r resp slo Hc Hd)
        as [[Hall ->]|(l1 & key & v & e & l2 & Heq & Hall & Hw & ->)];
        cbn [fst snd events d].
      * exists "name", (VString (GetName slo)).
        apply elem_of_cons. right. apply elem_of_app. left.
        apply attempts_elem_of. unfold assignments. apply elem_of_cons. by left.
      * exists key, v. apply elem_of_cons. right. apply elem_of_app. right.
        by apply list_elem_of_singleton.
    + rewrite Hmany by lia. simpl. split; [|done].
      intros (key & v & Hin). apply list_elem_of_singleton in Hin. done.
Qed.

(** C5: with zero results or with more than one, the read fails with the
    corresponding error, and it assigns no output field and no
    identifier: the resource data is the one the run started from and the
    list call is the only effect. *)
Theorem C5_failure_exits_set_nothing meta r resp :
  DatadogClientV1 meta (list_request (AuthV1 meta) r) = (resp, None) →
  (length (GetData resp) = 0 →
     returned writeField meta r = Err no_result ∧
     final writeField meta r = r ∧
     effects writeField meta r = [EvExecute (list_request (AuthV1 meta) r)]) ∧
  (1 < length (GetData resp) →
     returned writeField meta r = Err more_than_one_result ∧
     final writeField meta r = r ∧
     effects writeField meta r = [EvExecute (list_request (AuthV1 meta) r)]).
Proof.
  unfold returned, final, effects.
  intros Hc. split; intros Hlen.
  - by rewrite (run_no_result meta r resp Hc Hlen).
  - by rewrite (run_more_than_one meta r resp Hc Hlen).
Qed.


(** C7: when the list call returns an error, the read fails at once with
    the translation of that error, which keeps the underlying error and
    carries the context "error querying monitors"; whatever the response
    holds, nothing is assigned and the list call is the only effect. *)
Theorem C7_client_error_translated meta r resp err :
  DatadogClientV1 meta (list_request (AuthV1 meta) r) = (resp, Some err) →
  returned writeField meta r
    = Err (TranslateClientError err "error querying monitors") ∧
  error_cause (TranslateClientError err "error querying monitors") = Some err ∧
  error_context (TranslateClientError err "error querying monitors")
    = Some "error querying monitors" ∧
  final writeField meta r = r ∧
  effects writeField meta r = [EvExecute (list_request (AuthV1 meta) r)].
Proof.
  unfold returned, final, effects.
  intros Hc. by rewrite (run_client_error meta r resp err Hc).
Qed.

(** C8: if an output field assignment the run attempts is rejected, the
    read returns that error at once: the rejected assignment is the last
    effect of the run, so none of the remaining assignments is made.  On
    every failing path the identifier is the one the run started with and
    no identifier assignment is made. *)
Theorem C8_assignment_error_aborts meta r :
  (∀ key v e,
     EvSet key v ∈ effects writeField meta r →
     writeField key v = Some e →
     returned writeField meta r = Err e ∧
     last (effects writeField meta r) = Some (EvSet key v)) ∧
  (∀ e,
     returned writeField meta r = Err e →
     id (final writeField meta r) = id r ∧
     ∀ x, EvSetId x ∉ effects writeField meta r).
Proof.
  unfold returned, final, effects.
  destruct (run_shapes meta r)
    as [[e0 ->]|[(slo & Hall & ->)
                |(slo & l1 & k0 & v0 & e0 & l2 & Heq & Hall & Hw & ->)]];
    cbn [fst snd events d]; split.
  - intros key v e Hin. by apply list_elem_of_singleton in Hin.
  - intros e _. split; [done|]. intros x Hin.
    by apply list_elem_of_singleton in Hin.
  - intros key v e Hin Hrej. exfalso.
    apply elem_of_cons in Hin as [Hin|Hin]; [done|].
    apply elem_of_app in Hin as [Hin|Hin].
    + apply attempts_elem_of in Hin.
      rewrite Forall_forall in Hall. specialize (Hall _ Hin).
      unfold accepted in Hall. simpl in Hall. congruence.
    + by apply list_elem_of_singleton in Hin.
  - done.
  - intros key v e Hin Hrej.
    apply elem_of_cons in Hin as [Hin|Hin]; [done|].
    apply elem_of_app in Hin as [Hin|Hin].
    + exfalso. apply attempts_elem_of in Hin.
      rewrite Forall_forall in Hall. specialize (Hall _ Hin).
      unfold accepted in Hall. simpl in Hall. congruence.
    + apply list_elem_of_singleton in Hin. simplify_eq.
      split; [done|].
      change (last ([EvExecute (list_request (AuthV1 meta) r)] ++
                     attempts l1 ++ [EvSet k0 v0]) = Some (EvSet k0 v0)).
      rewrite app_assoc. apply last_snoc.
  - intros e _. split; [apply assigned_id|]. intros x Hin.
    apply elem_of_cons in Hin as [Hin|Hin]; [done|].
    apply elem_of_app in Hin as [Hin|Hin].
    + by apply attempts_no_set_id in Hin.
    + by apply list_elem_of_singleton in Hin.
Qed.

(** C2, as amended: when the query returns exactly one SLO and no
    attempted assignment is rejected, the read returns without error; it
    populates name, description, type, tags and thresholds and the group
    of the SLO's type (for a monitor-type SLO groups, and monitor_ids when
    the SLO has monitor identifiers; for any other type query); it sets
    the identifier to the SLO's identifier; and every other attribute,
    force_delete and validate among them, is not assigned and keeps the
    value it had. *)
Theorem C2_outputs_populated meta r resp slo :
  DatadogClientV1 meta (list_request (AuthV1 meta) r) = (resp, None) →
  GetData resp = [slo] →
  (∀ key v, EvSet key v ∈ effects writeField meta r → writeField key v = None) →
  returned writeField meta r = Ok () ∧
  id (final writeField meta r) = GetId slo ∧
  attrs (final writeField meta r) !! "name" = Some (VString (GetName slo)) ∧
  attrs (final writeField meta r) !! "description"
    = Some (VString (GetDescription slo)) ∧
  attrs (final writeField meta r) !! "type" = Some (VString (GetType slo)) ∧
  attrs (final writeField meta r) !! "tags" = Some (VStrings (GetTags slo)) ∧
  attrs (final writeField meta r) !! "thresholds"
    = Some (VObjects (threshold_entry <$> GetThresholds slo)) ∧
  (GetType slo = SLOTYPE_MONITOR →
     attrs (final writeField meta r) !! "groups" = Some (VStrings (GetGroups slo)) ∧
     (GetMonitorIds slo ≠ [] →
        attrs (final writeField meta r) !! "monitor_ids"
          = Some (VInts (GetMonitorIds slo)))) ∧
  (GetType slo ≠ SLOTYPE_MONITOR →
     attrs (final writeField meta r) !! "query"
       = Some (VObjects
                 [<["denominator" := SString (GetDenominator (GetQuery slo))]>
                    (<["numerator" := SString (GetNumerator (GetQuery slo))]> ∅)])) ∧
  (∀ key : string,
     key ∉ ["name"; "description"; "type"; "tags"; "thresholds";
            "monitor_ids"; "groups"; "query"] →
     attrs (final writeField meta r) !! key = attrs r !! key ∧
     ∀ v, EvSet key v ∉ effects writeField meta r).
Proof.
  unfold returned, final, effects.
  intros Hc Hd Hacc.
  pose proof (run_one_untouched meta r resp slo) as Hother.
  rewrite (run_one_accepted meta r resp slo Hc Hd Hacc) in *.
  cbn [fst snd events d set_id attrs id] in *.
  split_and!; try done.
  1-5: lookup_assigned.
  - intros Hmon. split.
    + unfold assignments, group_assignments, assigned.
      rewrite bool_decide_eq_true_2 by done.
      case_bool_decide; by simplify_map_eq.
    + intros Hne. unfold assignments, group_assignments, assigned.
      rewrite bool_decide_eq_true_2 by done.
      rewrite bool_decide_eq_true_2
        by (destruct (GetMonitorIds slo); [done|simpl; lia]).
      by simplify_map_eq.
  - intros Hmet. unfold assignments, group_assignments, assigned.
    rewrite bool_decide_eq_false_2 by done. by simplify_map_eq.
  - intros key Hkey.
    destruct (Hother key Hc Hd) as [Hev Hat]; [|done].
    rewrite assignments_keys. intros Hin. apply Hkey.
    repeat case_bool_decide; set_solver.
Qed.

(** C3: for a matched SLO of type monitor, monitor_ids is assigned the
    monitor identifiers only if there are some, groups is assigned in any
    case (an empty list too) and query is never assigned; for any other
    type, query is assigned a one-element list holding the numerator and
    the denominator of the SLO's query, and monitor_ids and groups are
    never assigned.  An attribute that is not assigned keeps the value it
    had, on every run; the assignments are made when none is rejected. *)
Theorem C3_type_branch meta r resp slo :
  DatadogClientV1 meta (list_request (AuthV1 meta) r) = (resp, None) →
  GetData resp = [slo] →
  (GetType slo = SLOTYPE_MONITOR →
     ((∀ v, EvSet "query" v ∉ effects writeField meta r) ∧
      attrs (final writeField meta r) !! "query" = attrs r !! "query") ∧
     (GetMonitorIds slo = [] →
        (∀ v, EvSet "monitor_ids" v ∉ effects writeField meta r) ∧
        attrs (final writeField meta r) !! "monitor_ids"
          = attrs r !! "monitor_ids") ∧
     ((∀ key v, EvSet key v ∈ effects writeField meta r → writeField key v = None) →
        (GetMonitorIds slo ≠ [] →
           EvSet "monitor_ids" (VInts (GetMonitorIds slo))
             ∈ effects writeField meta r ∧
           attrs (final writeField meta r) !! "monitor_ids"
             = Some (VInts (GetMonitorIds slo))) ∧
        EvSet "groups" (VStrings (GetGroups slo)) ∈ effects writeField meta r ∧
        attrs (final writeField meta r) !! "groups"
          = Some (VStrings (GetGroups slo)))) ∧
  (GetType slo ≠ SLOTYPE_MONITOR →
     ((∀ v, EvSet "monitor_ids" v ∉ effects writeField meta r) ∧
      attrs (final writeField meta r) !! "monitor_ids"
        = attrs r !! "monitor_ids") ∧
     ((∀ v, EvSet "groups" v ∉ effects writeField meta r) ∧
      attrs (final writeField meta r) !! "groups" = attrs r !! "groups") ∧
     ((∀ key v, EvSet key v ∈ effects writeField meta r → writeField key v = None) →
        EvSet "query"
          (VObjects
             [<["denominator" := SString (GetDenominator (GetQuery slo))]>
                (<["numerator" := SString (GetNumerator (GetQuery slo))]> ∅)])
          ∈ effects writeField meta r ∧
        attrs (final writeField meta r) !! "query"
          = Some (VObjects
                    [<["denominator" := SString (GetDenominator (GetQuery slo))]>
                       (<["numerator" := SString (GetNumerator (GetQuery slo))]> ∅)]))).
Proof.
  unfold returned, final, effects.
  intros Hc Hd.
  pose proof (run_one_untouched meta r resp slo) as Hother.
  pose proof (assignments_keys slo) as Hkeys.
  split.
  - intros Hmon. rewrite bool_decide_eq_true_2 in Hkeys by done.
    split_and!.
    + apply Hother; [done..|]. rewrite Hkeys.
      case_bool_decide; set_solver.
    + apply Hother; [done..|]. rewrite Hkeys.
      case_bool_decide; set_solver.
    + intros Hnil. apply Hother; [done..|]. rewrite Hkeys, Hnil. simpl.
      set_solver.
    + intros Hacc.
      rewrite (run_one_accepted meta r resp slo Hc Hd Hacc).
      cbn [fst snd events d set_id attrs].
      unfold assignments, group_assignments, assigned.
      rewrite bool_decide_eq_true_2 by done.
      split_and!.
      * intros Hne.
        rewrite bool_decide_eq_true_2
          by (destruct (GetMonitorIds slo); [done|simpl; lia]).
        split; [|by simplify_map_eq].
        unfold attempts. simpl. set_solver.
      * unfold attempts. case_bool_decide; simpl; set_solver.
      * case_bool_decide; by simplify_map_eq.
  - intros Hmet. rewrite bool_decide_eq_false_2 in Hkeys by done.
    split_and!.
    + apply Hother; [done..|]. rewrite Hkeys. set_solver.
    + apply Hother; [done..|]. rewrite Hkeys. set_solver.
    + apply Hother; [done..|]. rewrite Hkeys. set_solver.
    + apply Hother; [done..|]. rewrite Hkeys. set_solver.
    + intros Hacc.
      rewrite (run_one_accepted meta r resp slo Hc Hd Hacc).
      cbn [fst snd events d set_id attrs].
      unfold assignments, group_assignments, assigned.
      rewrite bool_decide_eq_false_2 by done.
      split; [|by simplify_map_eq].
      unfold attempts. simpl. set_solver.
Qed.

(** C4: the value assigned to thresholds is a list with one entry per
    threshold of the matched SLO, in the same order.  Each entry holds the
    timeframe and the target of its threshold; it holds warning,
    target_display and warning_display exactly when the threshold marks
    the field present, whatever the value (a present zero is copied); and
    it holds no other key.  This is the only value a run ever assigns to
    thresholds, and it is the value of the attribute when no assignment
    is rejected. *)
Theorem C4_thresholds_mapped meta r resp slo :
  DatadogClientV1 meta (list_request (AuthV1 meta) r) = (resp, None) →
  GetData resp = [slo] →
  ∃ l : list (gmap string Scalar),
    (∀ v, EvSet "thresholds" v ∈ effects writeField meta r → v = VObjects l) ∧
    ((∀ key v, EvSet key v ∈ effects writeField meta r → writeField key v = None) →
       attrs (final writeField meta r) !! "thresholds" = Some (VObjects l)) ∧
    length l = length (GetThresholds slo) ∧
    ∀ (i : nat) (threshold : SLOThreshold),
      GetThresholds slo !! i = Some threshold →
      ∃ t : gmap string Scalar,
        l !! i = Some t ∧
        t !! "timeframe" = Some (SString (Timeframe threshold)) ∧
        t !! "target" = Some (SFloat (Target threshold)) ∧
        t !! "warning" = SFloat <$> Warning threshold ∧
        t !! "target_display" = SString <$> TargetDisplay threshold ∧
        t !! "warning_display" = SString <$> WarningDisplay threshold ∧
        ∀ key : string,
          is_Some (t !! key) →
          key ∈ ["timeframe"; "target"; "warning"; "target_display";
                 "warning_display"].
Proof.
  unfold returned, final, effects.
  intros Hc Hd. exists (threshold_entry <$> GetThresholds slo). split_and!.
  - intros v Hin.
    apply (run_one_attempted meta r resp slo _ _ Hc Hd) in Hin.
    unfold assignments, group_assignments in Hin.
    repeat case_bool_decide; set_solver.
  - intros Hacc.
    rewrite (run_one_accepted meta r resp slo Hc Hd Hacc).
    cbn [fst snd events d set_id attrs].
    lookup_assigned.
  - apply length_fmap.
  - intros i threshold Hi. exists (threshold_entry threshold).
    split; [by rewrite list_lookup_fmap, Hi|].
    pose proof (threshold_entry_lookup threshold) as (? & ? & ? & ? & ?).
    split_and!; try done. apply threshold_entry_keys.
Qed.

(** C9: the declared schema marks monitor_search as removed, with the
    message "Feature is not yet supported", so that supplying it is
    rejected with an error carrying that message, while the three filter
    inputs are accepted. *)
Theorem C9_monitor_search_removed :
  schema.Removed <$> schema.lookup dataSourceDatadogServiceLevelObjective "monitor_search"
    = Some "Feature is not yet supported" ∧
  validateSupplied dataSourceDatadogServiceLevelObjective "monitor_search"
    = Some (External "Feature is not yet supported") ∧
  validateSupplied dataSourceDatadogServiceLevelObjective "name_query" = None ∧
  validateSupplied dataSourceDatadogServiceLevelObjective "tags_filter" = None ∧
  validateSupplied dataSourceDatadogServiceLevelObjective "metrics_query" = None.
Proof. split_and!; by vm_compute. Qed.

(** C10: for a matched SLO whose type is not monitor, the query output is
    assigned without any presence check.  When no assignment is rejected
    the attribute is a one-element list whose entry holds a numerator and
    a denominator: those of the SLO's query, and the empty string for each
    of them that is absent, as for both when the query itself is absent. *)
Theorem C10_query_without_presence_check meta r resp slo :
  DatadogClientV1 meta (list_request (AuthV1 meta) r) = (resp, None) →
  GetData resp = [slo] →
  GetType slo ≠ SLOTYPE_MONITOR →
  (∀ key v, EvSet key v ∈ effects writeField meta r → writeField key v = None) →
  ∃ t : gmap string Scalar,
    EvSet "query" (VObjects [t]) ∈ effects writeField meta r ∧
    attrs (final writeField meta r) !! "query" = Some (VObjects [t]) ∧
    t !! "numerator" =
      Some (SString match Query_ slo with
                    | Some q => match Numerator q with Some n => n | None => "" end
                    | None => ""
                    end) ∧
    t !! "denominator" =
      Some (SString match Query_ slo with
                    | Some q => match Denominator q with Some n => n | None => "" end
                    | None => ""
                    end) ∧
    (Query_ slo = None →
       t !! "numerator" = Some (SString "") ∧
       t !! "denominator" = Some (SString "")).
Proof.
  unfold returned, final, effects.
  intros Hc Hd Hmet Hacc.
  exists (<["denominator" := SString (GetDenominator (GetQuery slo))]>
            (<["numerator" := SString (GetNumerator (GetQuery slo))]> ∅)).
  rewrite (run_one_accepted meta r resp slo Hc Hd Hacc).
  cbn [fst snd events d set_id attrs].
  unfold assignments, group_assignments, assigned.
  rewrite bool_decide_eq_false_2 by done.
  unfold GetNumerator, GetDenominator, GetQuery.
  split_and!.
  - unfold attempts. simpl. set_solver.
  - by simplify_map_eq.
  - destruct (Query_ slo) as [[? ?]|]; by simplify_map_eq.
  - destruct (Query_ slo) as [[? ?]|]; by simplify_map_eq.
  - intros ->. by simplify_map_eq.
Qed.

(** ** Further properties of the read function *)

(** Membership in the effects of a run, case by case. *)
Ltac split_elem_of H :=
  repeat match type of H with
         | _ ∈ [] => apply elem_of_nil in H; destruct H
         | _ ∈ _ :: _ => apply elem_of_cons in H as [H|H]
         | _ ∈ (_ ++ _)%list => apply elem_of_app in H as [H|H]
         end.

(** Every run, with the answer of the service made explicit. *)
Lemma run_outcomes meta r :
  (∃ resp cause,
     DatadogClientV1 meta (list_request (AuthV1 meta) r) = (resp, Some cause) ∧
     run meta r =
       (Err (TranslateClientError cause "error querying monitors"),
        {| d := r; events := [EvExecute (list_request (AuthV1 meta) r)] |}))
  ∨ (∃ resp,
      DatadogClientV1 meta (list_request (AuthV1 meta) r) = (resp, None) ∧
      length (GetData resp) = 0 ∧
      run meta r =
        (Err no_result,
         {| d := r; events := [EvExecute (list_request (AuthV1 meta) r)] |}))
  ∨ (∃ resp,
      DatadogClientV1 meta (list_request (AuthV1 meta) r) = (resp, None) ∧
      1 < length (GetData resp) ∧
      run meta r =
        (Err more_than_one_result,
         {| d := r; events := [EvExecute (list_request (AuthV1 meta) r)] |}))
  ∨ (∃ resp slo,
      DatadogClientV1 meta (list_request (AuthV1 meta) r) = (resp, None) ∧
      GetData resp = [slo] ∧
      Forall (accepted writeField) (assignments slo) ∧
      run meta r =
        (Ok (),
         {| d := set_id (GetId slo) (assigned (assignments slo) r);
            events := (EvExecute (list_request (AuthV1 meta) r)
                         :: attempts (assignments slo) ++ [EvSetId (GetId slo)])%list |}))
  ∨ (∃ resp slo l1 key v e l2,
      DatadogClientV1 meta (list_request (AuthV1 meta) r) = (resp, None) ∧
      GetData resp = [slo] ∧
      assignments slo = (l1 ++ (key, v) :: l2)%list ∧
      Forall (accepted writeField) l1 ∧
      writeField key v = Some e ∧
      run meta r =
        (Err e,
         {| d := assigned l1 r;
            events := (EvExecute (list_request (AuthV1 meta) r)
                         :: attempts l1 ++ [EvSet key v])%list |})).
Proof.
  destruct (DatadogClientV1 meta (list_request (AuthV1 meta) r))
    as [resp [err|]] eqn:Hc.
  { left. exists resp, err. split; [done|]. by eapply run_client_error. }
  right.
  destruct (GetData resp) as [|slo [|slo' slos]] eqn:Hd.
  - left. exists resp. split_and!; [done|by rewrite Hd|].
    eapply run_no_result; [done|]. by rewrite Hd.
  - right. right.
    destruct (run_one_result meta r resp slo Hc Hd)
      as [[Hall Hrun]|(l1 & key & v & e & l2 & Heq & Hall & Hw & Hrun)].
    + left. by exists resp, slo.
    + right. by exists resp, slo, l1, key, v, e, l2.
  - right. left. exists resp.
    assert (1 < length (GetData resp)) by (rewrite Hd; simpl; lia).
    split_and!; [done..|]. by eapply run_more_than_one.
Qed.

Lemma assignments_NoDup slo : NoDup (assignments slo).*1.
Proof.
  rewrite assignments_keys.
  repeat case_bool_decide; simpl;
    repeat (apply NoDup_cons; split; [set_solver|]); apply NoDup_nil_2.
Qed.

Lemma assignments_keys_subseteq slo (key : string) :
  key ∈ (assignments slo).*1 →
  key ∈ ["name"; "description"; "type"; "tags"; "thresholds";
         "monitor_ids"; "groups"; "query"].
Proof.
  rewrite assignments_keys. repeat case_bool_decide; set_solver.
Qed.

(** With distinct keys, each assignment of the list decides its key. *)
Lemma assigned_lookup_in l r (key : string) (v : Value) :
  NoDup l.*1 → (key, v) ∈ l → attrs (assigned l r) !! key = Some v.
Proof.
  intros Hnd Hin.
  apply list_elem_of_split in Hin as (la & lb & ->).
  apply assigned_lookup_last.
  rewrite fmap_app, fmap_cons in Hnd.
  apply NoDup_app in Hnd as (_ & _ & Hnd).
  by apply NoDup_cons in Hnd as [Hnot _].
Qed.

Lemma assigned_lookup_is_Some l r (key : string) :
  is_Some (attrs r !! key) → is_Some (attrs (assigned l r) !! key).
Proof.
  revert r. induction l as [|[k v] l IH]; intros r Hsome; [done|].
  rewrite assigned_cons. apply IH. simpl.
  rewrite lookup_insert. by case_decide.
Qed.

(** X1: the read never panics: the two length checks guard the index into
    the result list. *)
Theorem X1_read_never_panics meta r reason :
  returned writeField meta r ≠ Panic reason.
Proof.
  unfold returned.
  destruct (run_shapes meta r)
    as [[e ->]|[(slo & _ & ->)|(slo & l1 & key & v & e & l2 & _ & _ & _ & ->)]];
    done.
Qed.

(** X2: the read returns without error exactly when the list call answers
    without error, with exactly one SLO, and none of the assignments the run
    attempts is rejected. *)
Theorem X2_success_iff meta r :
  returned writeField meta r = Ok () ↔
  ∃ resp,
    DatadogClientV1 meta (list_request (AuthV1 meta) r) = (resp, None) ∧
    length (GetData resp) = 1 ∧
    ∀ key v, EvSet key v ∈ effects writeField meta r → writeField key v = None.
Proof.
  unfold returned, effects. split.
  - destruct (run_outcomes meta r)
      as [(resp & cause & Hc & ->)|[(resp & Hc & Hlen & ->)|[(resp & Hc & Hlen & ->)
         |[(resp & slo & Hc & Hd & Hall & ->)
          |(resp & slo & l1 & k0 & v0 & e & l2 & Hc & Hd & Heq & Hall & Hw & ->)]]]];
      cbn [fst snd events d]; intros Hok; try done.
    exists resp. split_and!; [done|by rewrite Hd|].
    intros key v Hin. split_elem_of Hin; try done.
    apply attempts_elem_of in Hin.
    rewrite Forall_forall in Hall. exact (Hall _ Hin).
  - intros (resp & Hc & Hlen & Hacc).
    destruct (GetData resp) as [|slo [|slo' slos]] eqn:Hd; try done.
    by rewrite (run_one_accepted meta r resp slo Hc Hd Hacc).
Qed.

(** X3: every error the read returns is the translation of the error of
    the list call, one of its own two errors on the number of results, or
    the error with which an attempted assignment was rejected. *)
Theorem X3_error_provenance meta r e :
  returned writeField meta r = Err e →
  (∃ resp cause,
     DatadogClientV1 meta (list_request (AuthV1 meta) r) = (resp, Some cause) ∧
     e = TranslateClientError cause "error querying monitors")
  ∨ (∃ resp,
      DatadogClientV1 meta (list_request (AuthV1 meta) r) = (resp, None) ∧
      length (GetData resp) = 0 ∧ e = no_result)
  ∨ (∃ resp,
      DatadogClientV1 meta (list_request (AuthV1 meta) r) = (resp, None) ∧
      1 < length (GetData resp) ∧ e = more_than_one_result)
  ∨ (∃ key v,
      EvSet key v ∈ effects writeField meta r ∧ writeField key v = Some e).
Proof.
  unfold returned, effects.
  destruct (run_outcomes meta r)
    as [(resp & cause & Hc & ->)|[(resp & Hc & Hlen & ->)|[(resp & Hc & Hlen & ->)
       |[(resp & slo & Hc & Hd & Hall & ->)
        |(resp & slo & l1 & k0 & v0 & e0 & l2 & Hc & Hd & Heq & Hall & Hw & ->)]]]];
    cbn [fst snd events d]; intros He; simplify_eq.
  - left. by exists resp, cause.
  - right. left. by exists resp.
  - right. right. left. by exists resp.
  - right. right. right. exists k0, v0. split; [|done].
    apply elem_of_cons. right. apply elem_of_app. right.
    by apply list_elem_of_singleton.
Qed.

(** X4: the identifier is assigned exactly on the runs that return without
    error; it is then assigned once, as the last effect of the run, and it
    is the identifier the resource data is left with. *)
Theorem X4_identifier_assigned_last meta r :
  (returned writeField meta r = Ok () ↔ ∃ x, EvSetId x ∈ effects writeField meta r) ∧
  (∀ x, EvSetId x ∈ effects writeField meta r →
     id (final writeField meta r) = x ∧
     ∃ before,
       effects writeField meta r = (before ++ [EvSetId x])%list ∧
       ∀ y, EvSetId y ∉ before).
Proof.
  unfold returned, final, effects.
  destruct (run_outcomes meta r)
    as [(resp & cause & Hc & ->)|[(resp & Hc & Hlen & ->)|[(resp & Hc & Hlen & ->)
       |[(resp & slo & Hc & Hd & Hall & ->)
        |(resp & slo & l1 & k0 & v0 & e0 & l2 & Hc & Hd & Heq & Hall & Hw & ->)]]]];
    cbn [fst snd events d]; split.
  1, 3, 5, 9: split; [done|]; intros (x & Hin); split_elem_of Hin; try done;
    by apply attempts_no_set_id in Hin.
  1, 2, 3, 6: intros x Hin; split_elem_of Hin; try done;
    by apply attempts_no_set_id in Hin.
  - split; [|done]. intros _. exists (GetId slo).
    apply elem_of_cons. right. apply elem_of_app. right.
    by apply list_elem_of_singleton.
  - intros x Hin. split_elem_of Hin; try done.
    + by apply attempts_no_set_id in Hin.
    + simplify_eq. split; [done|].
      exists (EvExecute (list_request (AuthV1 meta) r) :: attempts (assignments slo)).
      split; [done|]. intros y Hy. split_elem_of Hy; try done.
      by apply attempts_no_set_id in Hy.
Qed.


(** X6: on every run, whatever its outcome, the only attributes ever
    assigned are name, description, type, tags, thresholds, monitor_ids,
    groups and query: every other attribute is never assigned and keeps its
    value.  No attribute is ever removed. *)
Theorem X6_other_attributes_kept meta r :
  (∀ key : string,
     key ∉ ["name"; "description"; "type"; "tags"; "thresholds";
            "monitor_ids"; "groups"; "query"] →
     attrs (final writeField meta r) !! key = attrs r !! key ∧
     ∀ v, EvSet key v ∉ effects writeField meta r) ∧
  (∀ key : string,
     is_Some (attrs r !! key) → is_Some (attrs (final writeField meta r) !! key)).
Proof.
  unfold final, effects. split.
  - intros key Hkey.
    destruct (run_outcomes meta r)
      as [(resp & cause & Hc & Hrun)|[(resp & Hc & Hlen & Hrun)|[(resp & Hc & Hlen & Hrun)
         |[(resp & slo & Hc & Hd & _)
          |(resp & slo & l1 & k0 & v0 & e0 & l2 & Hc & Hd & _)]]]].
    1-3: rewrite Hrun; cbn [fst snd events d]; split; [done|];
      intros v Hin; split_elem_of Hin; done.
    + destruct (run_one_untouched meta r resp slo key Hc Hd); [|done].
      intros Hin. by apply Hkey, (assignments_keys_subseteq slo).
    + destruct (run_one_untouched meta r resp slo key Hc Hd); [|done].
      intros Hin. by apply Hkey, (assignments_keys_subseteq slo).
  - intros key Hsome.
    destruct (run_shapes meta r)
      as [[e ->]|[(slo & _ & ->)|(slo & l1 & k0 & v0 & e & l2 & _ & _ & _ & ->)]];
      cbn [fst snd events d set_id attrs]; [done|by apply assigned_lookup_is_Some..].
Qed.

(** X7: an assignment that the run attempts and the field writer accepts
    is in the resource data when the run ends, also when a later assignment
    is rejected and the read returns its error: nothing is rolled back. *)
Theorem X7_accepted_assignments_persist meta r key v :
  EvSet key v ∈ effects writeField meta r →
  writeField key v = None →
  attrs (final writeField meta r) !! key = Some v.
Proof.
  unfold final, effects.
  destruct (run_outcomes meta r)
    as [(resp & cause & Hc & ->)|[(resp & Hc & Hlen & ->)|[(resp & Hc & Hlen & ->)
       |[(resp & slo & Hc & Hd & Hall & ->)
        |(resp & slo & l1 & k0 & v0 & e0 & l2 & Hc & Hd & Heq & Hall & Hw & ->)]]]];
    cbn [fst snd events d set_id attrs]; intros Hin Hacc;
    split_elem_of Hin; try done.
  - apply attempts_elem_of in Hin.
    apply assigned_lookup_in; [apply assignments_NoDup|done].
  - apply attempts_elem_of in Hin.
    apply assigned_lookup_in; [|done].
    pose proof (assignments_NoDup slo) as Hnd.
    rewrite Heq, fmap_app in Hnd. by apply NoDup_app in Hnd as (? & _).
  - simplify_eq.
Qed.

(** What a run attempts to assign is among the assignments of some SLO. *)
Lemma run_attempted meta r key v :
  EvSet key v ∈ events (run meta r).2 → ∃ slo, (key, v) ∈ assignments slo.
Proof.
  intros Hin.
  destruct (run_outcomes meta r)
    as [(resp & cause & Hc & Hrun)|[(resp & Hc & Hlen & Hrun)|[(resp & Hc & Hlen & Hrun)
       |[(resp & slo & Hc & Hd & _)
        |(resp & slo & l1 & k0 & v0 & e0 & l2 & Hc & Hd & _)]]]].
  1-3: rewrite Hrun in Hin; cbn [fst snd events d] in Hin;
    split_elem_of Hin; done.
  - exists slo. by eapply run_one_attempted.
  - exists slo. by eapply run_one_attempted.
Qed.

(** X8: every attribute the read attempts to assign, on any run, is
    declared in the schema, as a computed field that is neither an optional
    input nor removed. *)
Theorem X8_assigned_keys_declared_computed meta r key v :
  EvSet key v ∈ effects writeField meta r →
  ∃ s : schema.Schema,
    schema.lookup dataSourceDatadogServiceLevelObjective key = Some s ∧
    schema.Computed s = true ∧
    schema.Optional s = false ∧
    schema.Removed s = "".
Proof.
  unfold effects. intros Hin.
  apply run_attempted in Hin as (slo & Hin).
  assert (Hkey : key ∈ (assignments slo).*1)
    by (apply list_elem_of_fmap; by exists (key, v)).
  apply assignments_keys_subseteq in Hkey.
  split_elem_of Hkey; subst key; (eexists; split; [by vm_compute|done]).
Qed.

Lemma thresholds_conform (s : schema.Schema) (l : list SLOThreshold) :
  schema.lookup dataSourceDatadogServiceLevelObjective "thresholds" = Some s →
  conforms s (VObjects (threshold_entry <$> l)) = true.
Proof.
  intros Hs. vm_compute in Hs. injection Hs as <-.
  unfold conforms. cbn [schema.Type_ schema.Elem schema.MaxItems].
  rewrite andb_true_r.
  induction l as [|[tg [td|] tf [w|] [wd|]] l IH]; [done|..];
    cbn [fmap list_fmap forallb]; rewrite IH, andb_true_r; by vm_compute.
Qed.

(** X9: every value the read attempts to assign, on any run, fits the
    schema entry of its key: strings for the string fields, lists of strings
    and of integers for the sets, and lists of objects for thresholds and
    query whose keys are all fields of the declared element, with values of
    the declared type; the query list respects its [MaxItems]. *)
Theorem X9_assigned_values_conform meta r key v :
  EvSet key v ∈ effects writeField meta r →
  ∃ s : schema.Schema,
    schema.lookup dataSourceDatadogServiceLevelObjective key = Some s ∧
    conforms s v = true.
Proof.
  unfold effects. intros Hin.
  apply run_attempted in Hin as (slo & Hin).
  unfold assignments, group_assignments in Hin.
  repeat case_bool_decide; split_elem_of Hin; simplify_eq;
    try (eexists; split; [by vm_compute|by vm_compute]).
  all: destruct (schema.lookup dataSourceDatadogServiceLevelObjective "thresholds")
         as [s|] eqn:Hs; [|by vm_compute in Hs];
       exists s; split; [done|]; by apply thresholds_conform.
Qed.

(** The assignments of a list, all at once. *)
Lemma assigned_union l r :
  assigned l r =
    {| config := config r;
       attrs := list_to_map (reverse l) ∪ attrs r;
       id := id r |}.
Proof.
  revert r. induction l as [|[k v] l IH]; intros r.
  - unfold assigned. simpl. rewrite (left_id_L ∅ (∪)). by destruct r.
  - rewrite assigned_cons, IH. simpl. f_equal.
    rewrite reverse_cons, list_to_map_app. simpl.
    rewrite <- (assoc_L (∪)). f_equal.
    by rewrite <- insert_union_l, (left_id_L ∅ (∪)).
Qed.

Lemma assigned_idemp l r : assigned l (assigned l r) = assigned l r.
Proof.
  rewrite (assigned_union l (assigned l r)), (assigned_union l r). simpl.
  f_equal. by rewrite (assoc_L (∪)), (idemp_L (∪)).
Qed.

Lemma assigned_set_id l g r : assigned l (set_id g r) = set_id g (assigned l r).
Proof. by rewrite (assigned_union l (set_id g r)), (assigned_union l r). Qed.

(** The assignments made, the result and the events added do not depend on
    the world the assignments start from. *)
Lemma assign_all_uniform l :
  ∃ l1 res evs, ∀ w,
    assign_all writeField l w =
      (res, {| d := assigned l1 (d w); events := (events w ++ evs)%list |}).
Proof.
  induction l as [|[k v] l (l1 & res & evs & IH)].
  - exists [], (Ok ()), []. intros w. simpl. rewrite app_nil_r. by destruct w.
  - simpl. destruct (writeField k v) as [e|].
    + by exists [], (Err e), [EvSet k v].
    + exists ((k, v) :: l1), res, (EvSet k v :: evs). intros w.
      rewrite IH, assigned_cons. simpl. by rewrite <- app_assoc.
Qed.

(** For a given request, a run is the same function of the resource data:
    it makes fixed assignments, possibly followed by a fixed identifier
    assignment, with a fixed result and fixed effects. *)
Lemma run_uniform meta req :
  ∃ l1 (g : option string) res evs,
    (res = Ok () → is_Some g) ∧
    ∀ r,
      list_request (AuthV1 meta) r = req →
      run meta r =
        (res, {| d := from_option (λ x, set_id x (assigned l1 r)) (assigned l1 r) g;
                 events := evs |}).
Proof.
  destruct (DatadogClientV1 meta req) as [resp [err|]] eqn:Hc.
  { exists [], None, (Err (TranslateClientError err "error querying monitors")),
      [EvExecute req].
    split; [done|]. intros r <-. by apply (run_client_error meta r resp). }
  destruct (GetData resp) as [|slo [|slo' slos]] eqn:Hd.
  - exists [], None, (Err no_result), [EvExecute req].
    split; [done|]. intros r <-. apply (run_no_result meta r resp); [done|by rewrite Hd].
  - destruct (assign_all_uniform (assignments slo)) as (l1 & res & evs & Hu).
    destruct res as [[]|e|reason].
    + exists l1, (Some (GetId slo)), (Ok ()),
        (EvExecute req :: evs ++ [EvSetId (GetId slo)])%list.
      split; [by eexists|]. intros r <-. rewrite read_run_cases. unfold run_cases.
      rewrite Hc, Hd, Hu. by unfold finish, SetId.
    + exists l1, None, (Err e), (EvExecute req :: evs).
      split; [done|]. intros r <-. rewrite read_run_cases. unfold run_cases.
      by rewrite Hc, Hd, Hu.
    + exists l1, None, (Panic reason), (EvExecute req :: evs).
      split; [done|]. intros r <-. rewrite read_run_cases. unfold run_cases.
      by rewrite Hc, Hd, Hu.
  - exists [], None, (Err more_than_one_result), [EvExecute req].
    split; [done|]. intros r <-. apply (run_more_than_one meta r resp); [done|].
    rewrite Hd. simpl. lia.
Qed.

(** X10: reading again is idempotent: a second run, started from the
    resource data the first run left and given the same answer of the
    service, returns the same result and leaves the resource data as the
    first run left it. *)
Theorem X10_read_idempotent meta r :
  returned writeField meta (final writeField meta r) = returned writeField meta r ∧
  final writeField meta (final writeField meta r) = final writeField meta r.
Proof.
  unfold returned, final.
  destruct (run_uniform meta (list_request (AuthV1 meta) r))
    as (l1 & g & res & evs & _ & Hu).
  rewrite (Hu r eq_refl). cbn [fst snd d].
  assert (Hreq : ∀ r2, config r2 = config r →
                 list_request (AuthV1 meta) r2 = list_request (AuthV1 meta) r)
    by (intros r2 Heq; unfold list_request; by rewrite Heq).
  destruct g as [g|]; cbn [from_option].
  - rewrite (Hu (set_id g (assigned l1 r)))
      by (apply Hreq; cbn [set_id config]; apply assigned_config).
    cbn [fst snd d from_option]. split; [done|].
    by rewrite assigned_set_id, assigned_idemp.
  - rewrite (Hu (assigned l1 r)) by (apply Hreq; apply assigned_config).
    cbn [fst snd d from_option]. split; [done|].
    by rewrite assigned_idemp.
Qed.

(** X11: the outcome of a run depends on the resource data only through
    the three filters: two runs whose filters agree return the same result
    and perform the same effects, whatever attributes and identifier the
    resource data held before; when they return without error they leave
    the same identifier. *)
Theorem X11_depends_on_filters_only meta r r' :
  config r !! "name_query" = config r' !! "name_query" →
  config r !! "tags_filter" = config r' !! "tags_filter" →
  config r !! "metrics_query" = config r' !! "metrics_query" →
  returned writeField meta r = returned writeField meta r' ∧
  effects writeField meta r = effects writeField meta r' ∧
  (returned writeField meta r = Ok () →
     id (final writeField meta r) = id (final writeField meta r')).
Proof.
  unfold returned, final, effects. intros Hn Ht Hm.
  destruct (run_uniform meta (list_request (AuthV1 meta) r))
    as (l1 & g & res & evs & Hok & Hu).
  assert (Hreq : list_request (AuthV1 meta) r' = list_request (AuthV1 meta) r)
    by (unfold list_request; by rewrite Hn, Ht, Hm).
  rewrite (Hu r eq_refl), (Hu r' Hreq). cbn [fst snd d events].
  split_and!; [done..|].
  intros Hres. by destruct (Hok Hres) as [x ->].
Qed.


End Properties.

(** * Concrete runs *)

(** C2, as stated, fails: the monitor-type SLO of the specification's
    example is the single match and every assignment is accepted, the read
    returns without error, and yet force_delete and validate, both declared
    computed, are not populated. *)
Lemma C2_force_delete_validate_not_populated :
  GetData (DatadogClientV1 (service [checkout_latency])
             (list_request (AuthV1 (service [checkout_latency])) by_name)).1
    = [checkout_latency] ∧
  returned accept_all (service [checkout_latency]) by_name = Ok () ∧
  "force_delete" ∈ schema.computed_fields dataSourceDatadogServiceLevelObjective ∧
  "validate" ∈ schema.computed_fields dataSourceDatadogServiceLevelObjective ∧
  attrs (final accept_all (service [checkout_latency]) by_name) !! "force_delete"
    = None ∧
  attrs (final accept_all (service [checkout_latency]) by_name) !! "validate"
    = None.
Proof.
  split_and!; try (vm_compute; reflexivity).
  - vm_compute. repeat constructor.
  - vm_compute. repeat constructor.
Qed.

(** The specification's example of a monitor-type SLO matched by its
    name: the outputs, the identifier and the effects of the run. *)
Example checkout_latency_run :
  returned accept_all (service [checkout_latency]) by_name = Ok () ∧
  final accept_all (service [checkout_latency]) by_name =
    {| config := {["name_query" := "checkout latency"]};
       attrs :=
         list_to_map
           [ ("name", VString "checkout latency");
             ("description", VString "");
             ("type", VString "monitor");
             ("tags", VStrings ["team:shop"]);
             ("thresholds",
               VObjects [list_to_map
                           [ ("timeframe", SString "7d");
                             ("target", SFloat 0x1.8f9999999999ap+6%float) ]]);
             ("monitor_ids", VInts [123; 456]%Z);
             ("groups", VStrings ["env:prod"]) ];
       id := "slo-checkout" |} ∧
  effects accept_all (service [checkout_latency]) by_name !! 0 =
    Some (EvExecute {| ctx := "api-key"; query := Some "checkout latency";
                       tagsQuery := None; metricsQuery := None |}).
Proof. split_and!; by vm_compute. Qed.

(** Two SLOs match: the read asks for a more specific search. *)
Lemma C1_two_results :
  DatadogClientV1 (service [checkout_latency; request_ratio])
    (list_request (AuthV1 (service [checkout_latency; request_ratio])) by_name)
    = ({| Data := Some [checkout_latency; request_ratio] |}, None) ∧
  returned accept_all (service [checkout_latency; request_ratio]) by_name
    = Err more_than_one_result.
Proof.
  split; [reflexivity|].
  apply (C1_exactly_one_result accept_all
           (service [checkout_latency; request_ratio]) by_name
           {| Data := Some [checkout_latency; request_ratio] |});
    [reflexivity | simpl; lia].
Defined.

(** One monitor-type SLO matches and every assignment is accepted. *)
Lemma C2_checkout_latency_populated :
  returned accept_all (service [checkout_latency]) by_name = Ok () ∧
  id (final accept_all (service [checkout_latency]) by_name) = "slo-checkout".
Proof.
  pose proof (C2_outputs_populated accept_all (service [checkout_latency]) by_name
                {| Data := Some [checkout_latency] |} checkout_latency
                eq_refl eq_refl (λ _ _ _, eq_refl)) as (Hok & Hid & _).
  exact (conj Hok Hid).
Defined.

(** For the monitor-type SLO groups is assigned and query stays absent. *)
Lemma C3_checkout_latency_groups :
  GetType checkout_latency = SLOTYPE_MONITOR ∧
  attrs (final accept_all (service [checkout_latency]) by_name) !! "groups"
    = Some (VStrings ["env:prod"]) ∧
  attrs (final accept_all (service [checkout_latency]) by_name) !! "query" = None.
Proof.
  split; [reflexivity|].
  pose proof (C3_type_branch accept_all (service [checkout_latency]) by_name
                {| Data := Some [checkout_latency] |} checkout_latency
                eq_refl eq_refl) as [Hmon _].
  destruct (Hmon eq_refl) as ((_ & Hquery) & _ & Hset).
  destruct (Hset (λ _ _ _, eq_refl)) as (_ & _ & Hgroups).
  exact (conj Hgroups Hquery).
Defined.

(** A threshold whose warning is present and zero, and whose warning
    display is absent: the zero is copied, the display is left out. *)
Lemma C4_request_ratio_thresholds :
  ∃ t : gmap string Scalar,
    attrs (final accept_all (service [request_ratio]) by_name) !! "thresholds"
      = Some (VObjects [t]) ∧
    t !! "warning" = Some (SFloat 0%float) ∧
    t !! "warning_display" = None.
Proof.
  destruct (C4_thresholds_mapped accept_all (service [request_ratio]) by_name
              {| Data := Some [request_ratio] |} request_ratio eq_refl eq_refl)
    as (l & _ & Hattr & Hlen & Hentry).
  destruct (Hentry 0 _ eq_refl) as (t & Ht & _ & _ & Hwarning & _ & Hdisplay & _).
  exists t. split; [|exact (conj Hwarning Hdisplay)].
  rewrite (Hattr (λ _ _ _, eq_refl)).
  destruct l as [|t0 [|t1 l]]; simpl in Hlen, Ht; try discriminate.
  by injection Ht as ->.
Defined.

(** No SLO matches: the read asks for a less specific search and leaves
    the resource data as it was. *)
Lemma C5_no_result :
  length (GetData {| Data := Some [] |}) = 0 ∧
  returned accept_all (service []) by_name = Err no_result ∧
  final accept_all (service []) by_name = by_name.
Proof.
  split; [reflexivity|].
  pose proof (C5_failure_exits_set_nothing accept_all (service []) by_name
                {| Data := Some [] |} eq_refl) as [Hnone _].
  destruct (Hnone eq_refl) as (Herr & Hd & _).
  exact (conj Herr Hd).
Defined.

(** The service answers with an error. *)
Lemma C7_service_unavailable :
  returned accept_all (service_failing (External "503 Service Unavailable")) by_name
    = Err (Translated "error querying monitors" (External "503 Service Unavailable")) ∧
  final accept_all (service_failing (External "503 Service Unavailable")) by_name
    = by_name.
Proof.
  pose proof (C7_client_error_translated accept_all
                (service_failing (External "503 Service Unavailable")) by_name
                {| Data := None |} (External "503 Service Unavailable") eq_refl)
    as (Herr & _ & _ & Hd & _).
  exact (conj Herr Hd).
Defined.

(** The field writer rejects tags: the run stops there, after name,
    description and type, and the identifier stays empty. *)
Lemma C8_tags_rejected :
  reject "tags" "tags" (VStrings ["team:shop"]) = Some (External "type mismatch") ∧
  returned (reject "tags") (service [checkout_latency]) by_name
    = Err (External "type mismatch") ∧
  last (effects (reject "tags") (service [checkout_latency]) by_name)
    = Some (EvSet "tags" (VStrings ["team:shop"])) ∧
  id (final (reject "tags") (service [checkout_latency]) by_name) = "".
Proof.
  split; [reflexivity|].
  pose proof (C8_assignment_error_aborts (reject "tags") (service [checkout_latency])
                by_name) as [Hset Hfail].
  assert (Hin : EvSet "tags" (VStrings ["team:shop"])
                  ∈ effects (reject "tags") (service [checkout_latency]) by_name)
    by (vm_compute; repeat constructor).
  destruct (Hset "tags" (VStrings ["team:shop"]) (External "type mismatch")
              Hin eq_refl) as [Herr Hlast].
  destruct (Hfail _ Herr) as [Hid _].
  exact (conj Herr (conj Hlast Hid)).
Defined.

(** A metric-type SLO without query: the query output still holds one
    entry, with empty numerator and denominator. *)
Lemma C10_request_ratio_query :
  GetType request_ratio ≠ SLOTYPE_MONITOR ∧
  Query_ request_ratio = None ∧
  ∃ t : gmap string Scalar,
    attrs (final accept_all (service [request_ratio]) by_name) !! "query"
      = Some (VObjects [t]) ∧
    t !! "numerator" = Some (SString "") ∧
    t !! "denominator" = Some (SString "").
Proof.
  assert (Hmet : GetType request_ratio ≠ SLOTYPE_MONITOR) by discriminate.
  split; [exact Hmet|]. split; [reflexivity|].
  destruct (C10_query_without_presence_check accept_all (service [request_ratio])
              by_name {| Data := Some [request_ratio] |} request_ratio
              eq_refl eq_refl Hmet (λ _ _ _, eq_refl))
    as (t & _ & Hattr & _ & _ & Habsent).
  exists t. split; [exact Hattr|]. exact (Habsent eq_refl).
Defined.

(** ** Concrete runs for the further properties *)

(** The monitor-type SLO is read without error. *)
Lemma X2_checkout_latency_succeeds :
  returned accept_all (service [checkout_latency]) by_name = Ok ().
Proof.
  apply (X2_success_iff accept_all (service [checkout_latency]) by_name).
  exists {| Data := Some [checkout_latency] |}.
  split; [reflexivity|]. split; [reflexivity|]. intros key v _. reflexivity.
Defined.

(** The error returned when tags is rejected is the field writer's. *)
Lemma X3_tags_rejected_provenance :
  returned (reject "tags") (service [checkout_latency]) by_name
    = Err (External "type mismatch") ∧
  ((∃ resp cause,
      DatadogClientV1 (service [checkout_latency])
        (list_request (AuthV1 (service [checkout_latency])) by_name)
        = (resp, Some cause) ∧
      External "type mismatch" = TranslateClientError cause "error querying monitors")
   ∨ (∃ resp,
       DatadogClientV1 (service [checkout_latency])
         (list_request (AuthV1 (service [checkout_latency])) by_name)
         = (resp, None) ∧
       length (GetData resp) = 0 ∧ External "type mismatch" = no_result)
   ∨ (∃ resp,
       DatadogClientV1 (service [checkout_latency])
         (list_request (AuthV1 (service [checkout_latency])) by_name)
         = (resp, None) ∧
       1 < length (GetData resp) ∧ External "type mismatch" = more_than_one_result)
   ∨ (∃ key v,
       EvSet key v ∈ effects (reject "tags") (service [checkout_latency]) by_name ∧
       reject "tags" key v = Some (External "type mismatch"))).
Proof.
  assert (Herr : returned (reject "tags") (service [checkout_latency]) by_name
                 = Err (External "type mismatch")) by (vm_compute; reflexivity).
  split; [exact Herr|].
  exact (X3_error_provenance (reject "tags") (service [checkout_latency]) by_name
           (External "type mismatch") Herr).
Defined.

(** The identifier of the matched SLO is what the resource data is left
    with. *)
Lemma X4_checkout_latency_identifier :
  EvSetId "slo-checkout" ∈ effects accept_all (service [checkout_latency]) by_name ∧
  id (final accept_all (service [checkout_latency]) by_name) = "slo-checkout".
Proof.
  assert (Hin : EvSetId "slo-checkout"
                  ∈ effects accept_all (service [checkout_latency]) by_name)
    by (vm_compute; repeat constructor).
  split; [exact Hin|].
  destruct (X4_identifier_assigned_last accept_all (service [checkout_latency])
              by_name) as [_ Hlast].
  exact (proj1 (Hlast "slo-checkout" Hin)).
Defined.

(** An attribute the read does not know keeps the value it had. *)
Lemma X6_force_delete_kept :
  attrs (final accept_all (service [checkout_latency]) by_name_again) !! "force_delete"
    = attrs by_name_again !! "force_delete".
Proof.
  destruct (X6_other_attributes_kept accept_all (service [checkout_latency])
              by_name_again) as [Hother _].
  apply Hother.
  repeat (apply not_elem_of_cons; split; [discriminate|]). apply not_elem_of_nil.
Defined.

(** When tags is rejected, the name assigned before it stays. *)
Lemma X7_name_stays_when_tags_rejected :
  returned (reject "tags") (service [checkout_latency]) by_name
    = Err (External "type mismatch") ∧
  attrs (final (reject "tags") (service [checkout_latency]) by_name) !! "name"
    = Some (VString "checkout latency").
Proof.
  split; [vm_compute; reflexivity|].
  apply (X7_accepted_assignments_persist (reject "tags")
           (service [checkout_latency]) by_name).
  - vm_compute. repeat constructor.
  - reflexivity.
Defined.

(** groups, assigned for the monitor-type SLO, is a declared computed
    field. *)
Lemma X8_groups_declared :
  ∃ s : schema.Schema,
    schema.lookup dataSourceDatadogServiceLevelObjective "groups" = Some s ∧
    schema.Computed s = true ∧
    schema.Optional s = false ∧
    schema.Removed s = "".
Proof.
  apply (X8_assigned_keys_declared_computed accept_all (service [checkout_latency])
           by_name "groups" (VStrings ["env:prod"])).
  vm_compute. repeat constructor.
Defined.

(** The thresholds list assigned for the metric-type SLO fits its
    declaration. *)
Lemma X9_request_ratio_thresholds_conform :
  ∃ s : schema.Schema,
    schema.lookup dataSourceDatadogServiceLevelObjective "thresholds" = Some s ∧
    conforms s (VObjects (threshold_entry <$> GetThresholds request_ratio)) = true.
Proof.
  apply (X9_assigned_values_conform accept_all (service [request_ratio]) by_name
           "thresholds" (VObjects (threshold_entry <$> GetThresholds request_ratio))).
  vm_compute. repeat constructor.
Defined.

(** The same filter, different earlier outputs: the same effects. *)
Lemma X11_same_filter_same_effects :
  effects accept_all (service [checkout_latency]) by_name
    = effects accept_all (service [checkout_latency]) by_name_again ∧
  id (final accept_all (service [checkout_latency]) by_name)
    = id (final accept_all (service [checkout_latency]) by_name_again).
Proof.
  destruct (X11_depends_on_filters_only accept_all (service [checkout_latency])
              by_name by_name_again eq_refl eq_refl eq_refl)
    as (Hret & Heff & Hid).
  split; [exact Heff|]. apply Hid. vm_compute. reflexivity.
Defined.

